(** * Verification of the Bots deployment scaffolding

    The repository holds one source file, [mongo-init.js]: a MongoDB shell
    script (a user, three collections, one text index) followed by the
    container build file of the bot.  This development embeds both:

    - [Bson]: documents as the shell and the server exchange them;
    - [Mongo]: the server state, the shell's global [db], the shell
      helpers the script calls, and the script itself, [mongo_init];
    - [Dockerfile]: the build instructions and the image they produce;
    - [Core]: the ingestion pipeline of [main.py], which the repository
      does not hold, modelled from the specification.

    The modules [MongoFacts], [DockerfileFacts] and [CoreFacts] hold the
    properties. *)

From Stdlib Require Import ZArith NArith Ascii String.
From stdpp Require Import gmap strings list fin_maps.

Open Scope string_scope.
Open Scope list_scope.
Open Scope nat_scope.
Set Warnings "-register-all".
Set Default Proof Using "Type".

(** ** BSON values *)

Module Bson.

(** A JavaScript object literal keeps the order of its keys, so a document
    is an association list. *)
Inductive value : Type :=
| VStr (s : string)
| VInt (z : Z)
| VBool (b : bool)
| VOid (n : N)
| VArr (items : list value)
| VDoc (fields : list (string * value)).

Definition value_eq_dec : ∀ a b : value, {a = b} + {a ≠ b}.
Proof.
  fix IH 1.
  intros a b; destruct a, b; try (right; discriminate).
  - destruct (decide (s = s0)); [left | right]; congruence.
  - destruct (Z.eq_dec z z0); [left | right]; congruence.
  - destruct (Bool.bool_dec b b0); [left | right]; congruence.
  - destruct (N.eq_dec n n0); [left | right]; congruence.
  - destruct (List.list_eq_dec IH items items0); [left | right]; congruence.
  - assert (Hf : ∀ p q : string * value, {p = q} + {p ≠ q}).
    { intros [k v] [k' v'].
      destruct (decide (k = k')); [| right; congruence].
      destruct (IH v v'); [left | right]; congruence. }
    destruct (List.list_eq_dec Hf fields fields0); [left | right]; congruence.
Defined.

#[global] Instance value_eq : EqDecision value := value_eq_dec.

Definition document := list (string * value).

(** [doc.field]: the first binding of the key, as the server reads it. *)
Fixpoint get_field (k : string) (d : document) : option value :=
  match d with
  | [] => None
  | (k', v) :: d' => if decide (k' = k) then Some v else get_field k d'
  end.

Definition as_string (v : value) : option string :=
  match v with VStr s => Some s | _ => None end.

Definition as_array (v : value) : option (list value) :=
  match v with VArr l => Some l | _ => None end.

Definition as_document (v : value) : option document :=
  match v with VDoc d => Some d | _ => None end.

End Bson.

(** ** The MongoDB server and the shell *)

Module Mongo.
Import Bson.

(** *** Server state *)

Record role := Role { role_name : string; role_db : string }.

(** A user document; [u_db] is the database the user is defined in. *)
Record user_doc := User {
  u_user : string;
  u_pwd : string;
  u_db : string;
  u_roles : list role
}.

Inductive index_kind := Asc | Desc | Text.

Record index := Index {
  idx_name : string;
  idx_key : list (string * index_kind);
  idx_unique : bool
}.

Record collection := Collection {
  coll_validator : option value;
  coll_capped : bool;
  coll_indexes : list index;
  coll_docs : list document
}.

(** The administrative calls of a shell session, oldest first. *)
Inductive event :=
| EvCreateUser (dbn user : string)
| EvSetDb (dbn : string)
| EvCreateCollection (dbn coll : string)
| EvCreateIndex (dbn coll idx : string).

(** [db] is the shell's global variable of that name: the handle of the
    current database, identified with the database's name.  Collections are
    keyed by database and collection name.  Every collection has the
    mandatory unique index on [_id]; [coll_indexes] holds the others. *)
Record mongo := MkMongo {
  db : string;
  users : list user_doc;
  colls : gmap (string * string) collection;
  next_oid : N;
  history : list event
}.

#[global] Instance role_eq : EqDecision role.
Proof. solve_decision. Defined.
#[global] Instance user_doc_eq : EqDecision user_doc.
Proof. solve_decision. Defined.
#[global] Instance index_kind_eq : EqDecision index_kind.
Proof. solve_decision. Defined.
#[global] Instance index_eq : EqDecision index.
Proof. solve_decision. Defined.
#[global] Instance event_eq : EqDecision event.
Proof. solve_decision. Defined.

Definition empty_collection : collection :=
  {| coll_validator := None; coll_capped := false;
     coll_indexes := []; coll_docs := [] |}.

Definition set_db (d : string) (s : mongo) : mongo :=
  {| db := d; users := users s; colls := colls s;
     next_oid := next_oid s; history := history s |}.

Definition set_users (us : list user_doc) (s : mongo) : mongo :=
  {| db := db s; users := us; colls := colls s;
     next_oid := next_oid s; history := history s |}.

Definition set_colls (cs : gmap (string * string) collection) (s : mongo) : mongo :=
  {| db := db s; users := users s; colls := cs;
     next_oid := next_oid s; history := history s |}.

Definition set_next_oid (n : N) (s : mongo) : mongo :=
  {| db := db s; users := users s; colls := colls s;
     next_oid := n; history := history s |}.

Definition log (e : event) (s : mongo) : mongo :=
  {| db := db s; users := users s; colls := colls s;
     next_oid := next_oid s; history := history s ++ [e] |}.

(** *** Errors and the shell monad *)

Inductive error :=
| BadValue (what : string)
| UserAlreadyExists (user dbn : string)
| NamespaceExists (dbn coll : string)
| IndexOptionsConflict (idx : string)
| DuplicateKey (idx : string)
| DocumentValidationFailure
| IllegalOperation
| Unauthorized.

Inductive result (A : Type) :=
| Ok (a : A)
| Err (e : error).
Arguments Ok {A} a.
Arguments Err {A} e.

(** A shell computation reads the process environment, threads the state
    and stops at the first uncaught error. *)
Abbreviation environment := (gmap string string).

Definition M (A : Type) : Type := environment → mongo → result (A * mongo).

Definition ret {A} (a : A) : M A := λ _ s, Ok (a, s).

Definition bind {A B} (c : M A) (k : A → M B) : M B :=
  λ e s, match c e s with
         | Ok (a, s') => k a e s'
         | Err x => Err x
         end.

Definition throw {A} (x : error) : M A := λ _ _, Err x.
Definition get : M mongo := λ _ s, Ok (s, s).
Definition modify (f : mongo → mongo) : M unit := λ _ s, Ok (tt, f s).

(** [process.env[name]] *)
Definition getenv (name : string) : M (option string) := λ e s, Ok (e !! name, s).

#[global] Instance M_ret : MRet M := @ret.
#[global] Instance M_bind : MBind M := λ A B k c, bind c k.

(** *** Command documents *)

(** A role is a name, meaning the role on the current database, or a
    document [{role, db}]. *)
Definition parse_role (cur : string) (v : value) : option role :=
  match v with
  | VStr r => Some (Role r cur)
  | VDoc d =>
      r ← get_field "role" d ≫= as_string;
      dbn ← get_field "db" d ≫= as_string;
      Some (Role r dbn)
  | _ => None
  end.

Definition parse_user (cur : string) (d : document) : option user_doc :=
  user ← get_field "user" d ≫= as_string;
  pwd ← get_field "pwd" d ≫= as_string;
  roles ← get_field "roles" d ≫= as_array;
  rs ← mapM (parse_role cur) roles;
  Some (User user pwd cur rs).

Definition parse_kind (v : value) : option index_kind :=
  match v with
  | VInt 1 => Some Asc
  | VInt (-1) => Some Desc
  | VStr "text" => Some Text
  | _ => None
  end.

Definition parse_key (d : document) : option (list (string * index_kind)) :=
  match d with
  | [] => None
  | _ => mapM (λ fv, k ← parse_kind (snd fv); Some (fst fv, k)) d
  end.

Definition kind_name (k : index_kind) : string :=
  match k with Asc => "1" | Desc => "-1" | Text => "text" end.

(** The default name of an index: its fields and kinds joined by [_]. *)
Definition index_name (key : list (string * index_kind)) : string :=
  String.concat "_" (flat_map (λ fk, [fst fk; kind_name (snd fk)]) key).

Definition flag (k : string) (options : option document) : bool :=
  match options with
  | Some o => bool_decide (get_field k o = Some (VBool true))
  | None => false
  end.

Definition is_text (i : index) : bool :=
  existsb (λ fk, bool_decide (snd fk = Text)) (idx_key i).

Definition user_exists (user dbn : string) (us : list user_doc) : bool :=
  existsb (λ u, bool_decide (u_user u = user) && bool_decide (u_db u = dbn)) us.

Definition coll_or_empty (s : mongo) (k : string * string) : collection :=
  default empty_collection (colls s !! k).

(** *** Shell helpers *)

(** [db.createUser(arg)]: the user is defined in the current database. *)
Definition createUser (arg : value) : M unit :=
  s ← get;
  match as_document arg ≫= parse_user (db s) with
  | None => throw (BadValue "createUser")
  | Some u =>
      if user_exists (u_user u) (u_db u) (users s)
      then throw (UserAlreadyExists (u_user u) (u_db u))
      else modify (λ s, log (EvCreateUser (u_db u) (u_user u))
                          (set_users (users s ++ [u]) s))
  end.

(** [db.getSiblingDB(name)]: a handle, no server command. *)
Definition getSiblingDB (name : string) : M string := ret name.

(** [db = handle]: assignment to the shell's global. *)
Definition assign_db (handle : string) : M unit :=
  modify (λ s, log (EvSetDb handle) (set_db handle s)).

(** [db.createCollection(name, options)].  An existing collection is
    refused here whatever its options; a server from version 7.0 on accepts
    the call when the options are those of the existing collection.  The
    properties below use the call on collections that do not exist. *)
Definition createCollection (name : string) (options : option document) : M unit :=
  s ← get;
  match colls s !! (db s, name) with
  | Some _ => throw (NamespaceExists (db s) name)
  | None =>
      let c := {| coll_validator := options ≫= get_field "validator";
                  coll_capped := flag "capped" options;
                  coll_indexes := []; coll_docs := [] |} in
      modify (λ s, log (EvCreateCollection (db s) name)
                     (set_colls (<[(db s, name) := c]> (colls s)) s))
  end.

(** The key of a document in an index; a missing field counts as null. *)
Definition index_key (i : index) (d : document) : list (option value) :=
  map (λ fk, get_field (fst fk) d) (idx_key i).

Definition add_index (i : index) (c : collection) : collection :=
  {| coll_validator := coll_validator c; coll_capped := coll_capped c;
     coll_indexes := coll_indexes c ++ [i]; coll_docs := coll_docs c |}.

(** [db.<coll>.createIndex(keys, options)]: creates the collection when it
    is missing, does nothing when the same index exists, refuses a second
    text index and a unique index the stored documents already violate, and
    returns the index's name.  Of the options only [unique] is read: the
    name is always the default one, and weights and languages of a text
    index are not represented. *)
Definition createIndex (coll : string) (keys : value) (options : option document) : M string :=
  s ← get;
  match as_document keys ≫= parse_key with
  | None => throw (BadValue "createIndex")
  | Some key =>
      let i := Index (index_name key) key (flag "unique" options) in
      let c := coll_or_empty s (db s, coll) in
      match find (λ j, bool_decide (idx_name j = idx_name i)) (coll_indexes c) with
      | Some j =>
          if bool_decide (j = i) then ret (idx_name i)
          else throw (IndexOptionsConflict (idx_name i))
      | None =>
          if is_text i && existsb is_text (coll_indexes c)
          then throw (IndexOptionsConflict (idx_name i))
          else if idx_unique i && negb (bool_decide (NoDup (map (index_key i) (coll_docs c))))
          then throw (DuplicateKey (idx_name i))
          else
            modify (λ s, log (EvCreateIndex (db s) coll (idx_name i))
                           (set_colls (<[(db s, coll) := add_index i c]> (colls s)) s));;
            ret (idx_name i)
      end
  end.

(** *** The bootstrap script, [mongo-init.js] lines 1-22 *)

Definition telegram_cache : string := "telegram_cache".

(** The statements of the script in their order.  User name and password
    are string literals (the source's comment asks to replace the password
    by hand); [createCollection] and [createIndex] are called without
    options. *)
Definition mongo_init : M unit :=
  createUser (VDoc [("user", VStr "admin");
                    ("pwd", VStr "password");
                    ("roles", VArr [VDoc [("role", VStr "readWrite"); ("db", VStr "telegram_cache")];
                                    VDoc [("role", VStr "dbAdmin"); ("db", VStr "telegram_cache")]])]);;
  handle ← getSiblingDB "telegram_cache";
  assign_db handle;;
  createCollection "messages" None;;
  createCollection "events" None;;
  createCollection "audit_log" None;;
  _ ← createIndex "messages" (VDoc [("text", VStr "text"); ("caption", VStr "text")]) None;
  ret tt.

(** *** Client operations on documents *)

(** The privilege actions used below and the built-in roles granting them
    (MongoDB's [read], [readWrite] and [dbAdmin], restricted to these
    actions). *)
Inductive action :=
| Find | Insert | Update | Remove
| CreateCollection | CreateIndex | DropCollection | CollMod.

#[global] Instance action_eq : EqDecision action.
Proof. solve_decision. Defined.

Definition role_actions (r : string) : list action :=
  if decide (r = "read") then [Find]
  else if decide (r = "readWrite")
  then [Find; Insert; Update; Remove; CreateCollection; CreateIndex; DropCollection]
  else if decide (r = "dbAdmin")
  then [CollMod; CreateCollection; CreateIndex; DropCollection]
  else [].

Definition authorized (u : user_doc) (a : action) (dbn : string) : bool :=
  existsb (λ r, bool_decide (role_db r = dbn) && bool_decide (a ∈ role_actions (role_name r)))
          (u_roles u).

(** Run [c] on the current database with the privileges of the user
    [user] defined in database [authdb]. *)
Definition as_user {A} (user authdb : string) (a : action) (c : M A) : M A :=
  s ← get;
  match find (λ u, bool_decide (u_user u = user) && bool_decide (u_db u = authdb)) (users s) with
  | Some u => if authorized u a (db s) then c else throw Unauthorized
  | None => throw Unauthorized
  end.

(** The driver adds an [_id] when the document has none. *)
Definition with_id (n : N) (d : document) : document * N :=
  match get_field "_id" d with
  | Some _ => (d, n)
  | None => (("_id", VOid n) :: d, N.succ n)
  end.

Definition doc_id (d : document) : option value := get_field "_id" d.

Definition collides (docs : list document) (d : document) (i : index) : bool :=
  idx_unique i &&
  existsb (λ d', bool_decide (index_key i d' = index_key i d)) docs.

Definition add_doc (d : document) (c : collection) : collection :=
  {| coll_validator := coll_validator c; coll_capped := coll_capped c;
     coll_indexes := coll_indexes c; coll_docs := coll_docs c ++ [d] |}.

Definition set_docs (ds : list document) (c : collection) : collection :=
  {| coll_validator := coll_validator c; coll_capped := coll_capped c;
     coll_indexes := coll_indexes c; coll_docs := ds |}.

Section Storage.

(** How the server decides whether a document satisfies a validator
    expression is left open. *)
Variable matches : value → document → bool.

Definition valid (c : collection) (d : document) : bool :=
  match coll_validator c with
  | Some v => matches v d
  | None => true
  end.

(** [db.<coll>.insertOne(doc)], with the checks of the validator, of the
    unique [_id] and of every unique index, and no other; returns the
    inserted [_id]. *)
Definition insertOne (coll : string) (doc : document) : M (option value) :=
  s ← get;
  let c := coll_or_empty s (db s, coll) in
  let dn := with_id (next_oid s) doc in
  if negb (valid c (fst dn)) then throw DocumentValidationFailure
  else if existsb (λ d', bool_decide (doc_id d' = doc_id (fst dn))) (coll_docs c)
  then throw (DuplicateKey "_id_")
  else match find (collides (coll_docs c) (fst dn)) (coll_indexes c) with
       | Some i => throw (DuplicateKey (idx_name i))
       | None =>
           modify (λ s, set_next_oid (snd dn)
                          (set_colls (<[(db s, coll) := add_doc (fst dn) c]> (colls s)) s));;
           ret (doc_id (fst dn))
       end.

End Storage.

Fixpoint remove_first (id : value) (docs : list document) : option (list document) :=
  match docs with
  | [] => None
  | d :: rest =>
      if bool_decide (doc_id d = Some id) then Some rest
      else cons d <$> remove_first id rest
  end.

(** [db.<coll>.deleteOne({_id: id})]: returns the number of documents
    deleted; a capped collection refuses deletes. *)
Definition deleteOne (coll : string) (id : value) : M nat :=
  s ← get;
  match colls s !! (db s, coll) with
  | None => ret 0
  | Some c =>
      if coll_capped c then throw IllegalOperation else
      match remove_first id (coll_docs c) with
      | None => ret 0
      | Some ds =>
          modify (λ s, set_colls (<[(db s, coll) := set_docs ds c]> (colls s)) s);;
          ret 1
      end
  end.

(** How many stored documents of a collection carry [v] in field [k]. *)
Definition count_field (k : string) (v : value) (c : collection) : nat :=
  length (filter (λ d, get_field k d = Some v) (coll_docs c)).

(** *** What the script is checked against *)

(** A server with nothing in it, the shell connected to database [d0]. *)
Definition fresh (d0 : string) : mongo :=
  {| db := d0; users := []; colls := ∅; next_oid := 0%N; history := [] |}.

(** What the script is expected to leave behind: the principal, the text
    index, and the state reached from [s]. *)
Definition admin (d0 : string) : user_doc :=
  User "admin" "password" d0
       [Role "readWrite" telegram_cache; Role "dbAdmin" telegram_cache].

Definition text_index : index :=
  Index "text_text_caption_text" [("text", Text); ("caption", Text)] false.

Definition bootstrap_events (d0 : string) : list event :=
  [ EvCreateUser d0 "admin";
    EvSetDb telegram_cache;
    EvCreateCollection telegram_cache "messages";
    EvCreateCollection telegram_cache "events";
    EvCreateCollection telegram_cache "audit_log";
    EvCreateIndex telegram_cache "messages" "text_text_caption_text" ].

Definition bootstrapped (s : mongo) : mongo :=
  {| db := telegram_cache;
     users := users s ++ [admin (db s)];
     colls :=
       <[(telegram_cache, "messages") := add_index text_index empty_collection]>
         (<[(telegram_cache, "audit_log") := empty_collection]>
            (<[(telegram_cache, "events") := empty_collection]>
               (<[(telegram_cache, "messages") := empty_collection]> (colls s))));
     next_oid := next_oid s;
     history := history s ++ bootstrap_events (db s) |}.

(** The collections and the indexes a session created, read off its
    history. *)
Definition created_collections (h : list event) : list (string * string) :=
  flat_map (λ ev, match ev with
                  | EvCreateCollection d c => [(d, c)]
                  | _ => []
                  end) h.

Definition created_indexes (h : list event) : list (string * string * string) :=
  flat_map (λ ev, match ev with
                  | EvCreateIndex d c i => [(d, c, i)]
                  | _ => []
                  end) h.

(** A collection on which the server enforces nothing but the unique
    [_id]. *)
Definition unconstrained (c : collection) : Prop :=
  coll_validator c = None ∧ coll_capped c = false ∧
  Forall (λ i, idx_unique i = false) (coll_indexes c).

(** A computation that does not read the process environment. *)
Definition env_free {A} (c : M A) : Prop := ∀ e1 e2 s, c e1 s = c e2 s.

(** States from which the script runs to its end: no user [admin] in the
    starting database and none of the three collections yet. *)
Definition ready (s : mongo) : Prop :=
  user_exists "admin" (db s) (users s) = false ∧
  colls s !! (telegram_cache, "messages") = None ∧
  colls s !! (telegram_cache, "events") = None ∧
  colls s !! (telegram_cache, "audit_log") = None.

(** *** The script statement by statement *)

(** The six statements of the script, each one call of the shell. *)
Definition mongo_init_statements : list (M unit) :=
  [ createUser (VDoc [("user", VStr "admin");
                      ("pwd", VStr "password");
                      ("roles", VArr [VDoc [("role", VStr "readWrite"); ("db", VStr "telegram_cache")];
                                      VDoc [("role", VStr "dbAdmin"); ("db", VStr "telegram_cache")]])]);
    getSiblingDB "telegram_cache" ≫= assign_db;
    createCollection "messages" None;
    createCollection "events" None;
    createCollection "audit_log" None;
    createIndex "messages" (VDoc [("text", VStr "text"); ("caption", VStr "text")]) None
      ≫= λ _, ret tt ].

(** The shell runs a script file statement by statement and stops at the
    first uncaught error: what the statements before it did stays done.
    Returns the error, if any, and the server as the script leaves it. *)
Fixpoint run_statements (stmts : list (M unit)) (e : environment) (s : mongo)
  : option error * mongo :=
  match stmts with
  | [] => (None, s)
  | c :: rest =>
      match c e s with
      | Ok (_, s') => run_statements rest e s'
      | Err x => (Some x, s)
      end
  end.

End Mongo.

(** ** The container build file, [mongo-init.js] lines 23-47 *)

Module Dockerfile.

(** One simple command of a shell line, as its words. *)
Definition command := list string.

Inductive instruction :=
| FROM (name : string)
| WORKDIR (dir : string)
| RUN (script : list command)
| COPY (src dst : string)
| ENV (key val : string)
| CMD (argv : list string)
| ENTRYPOINT (argv : list string).

(** What a build step did to the file system, with the directory it ran in. *)
Inductive step :=
| Ran (cwd : string) (c : command)
| Copied (cwd src dst : string).

Record image := Image {
  workdir : string;
  env : gmap string string;
  steps : list step;
  cmd : option (list string);
  entrypoint : option (list string)
}.

Section Build.

(** The configuration of a base image, by name. *)
Variable pull : string → image.

Definition exec (img : image) (i : instruction) : image :=
  match i with
  | FROM name => pull name
  | WORKDIR dir =>
      Image dir (env img) (steps img) (cmd img) (entrypoint img)
  | RUN script =>
      Image (workdir img) (env img) (steps img ++ map (Ran (workdir img)) script)
            (cmd img) (entrypoint img)
  | COPY src dst =>
      Image (workdir img) (env img) (steps img ++ [Copied (workdir img) src dst])
            (cmd img) (entrypoint img)
  | ENV key val =>
      Image (workdir img) (<[key := val]> (env img)) (steps img)
            (cmd img) (entrypoint img)
  | CMD argv =>
      Image (workdir img) (env img) (steps img) (Some argv) (entrypoint img)
  | ENTRYPOINT argv =>
      Image (workdir img) (env img) (steps img) None (Some argv)
  end.

Definition scratch : image := Image "/" ∅ [] None None.

Definition build (file : list instruction) : image := foldl exec scratch file.

End Build.

(** The process a container of the image starts: the entry point followed
    by the default command. *)
Definition start_argv (img : image) : list string :=
  default [] (entrypoint img) ++ default [] (cmd img).

Definition is_option (w : string) : bool :=
  match w with
  | String "-"%char _ => true
  | _ => false
  end.

(** The system packages a command installs. *)
Definition apt_packages (c : command) : list string :=
  match c with
  | "apt-get" :: "install" :: args => filter (λ w, is_option w = false) args
  | _ => []
  end.

(** The requirement files a command hands to the package manager. *)
Fixpoint requirement_files (args : list string) : list string :=
  match args with
  | "-r" :: file :: rest => file :: requirement_files rest
  | _ :: rest => requirement_files rest
  | [] => []
  end.

Definition pip_requirements (c : command) : list string :=
  match c with
  | "pip" :: "install" :: args => requirement_files args
  | _ => []
  end.

Definition commands_run (ss : list step) : list command :=
  flat_map (λ s, match s with Ran _ c => [c] | Copied _ _ _ => [] end) ss.

Definition dockerfile : list instruction :=
  [ FROM "python:3.11-slim";
    WORKDIR "/app";
    RUN [ ["apt-get"; "update"];
          ["apt-get"; "install"; "-y"; "gcc"];
          ["rm"; "-rf"; "/var/lib/apt/lists/*"] ];
    COPY "requirements.txt" ".";
    RUN [ ["pip"; "install"; "--no-cache-dir"; "-r"; "requirements.txt"] ];
    COPY "." ".";
    RUN [ ["mkdir"; "-p"; "logs"; "data"] ];
    ENV "PYTHONUNBUFFERED" "1";
    ENV "PYTHONPATH" "/app";
    CMD ["python"; "main.py"] ].

Definition sets_start (i : instruction) : bool :=
  match i with
  | CMD _ | ENTRYPOINT _ => true
  | _ => false
  end.

Definition step_cwd (st : step) : string :=
  match st with
  | Ran cwd _ => cwd
  | Copied cwd _ _ => cwd
  end.

(** [x] comes before [y] in [l]. *)
Definition precedes {A} (x y : A) (l : list A) : Prop :=
  ∃ l1 l2 l3, l = l1 ++ x :: l2 ++ y :: l3.

End Dockerfile.

(** ** The ingestion pipeline *)

(** The application ([main.py], started by the build file's [CMD]) is not
    among the sources.  Every definition of this module is written from the
    specification's sections 2 to 5, 7 and 9. *)

Module Core.

(** Modelled from the spec: the event types of section 3, for the absent
    [main.py]. *)
Inductive EventType := created | edited | deleted | reacted.

(** Modelled from the spec: the Message record of section 3; [tombstoned]
    is the logical deletion of its lifecycle. *)
Record Message := MkMessage {
  id : string;
  chat_id : Z;
  sender_id : Z;
  text : option string;
  caption : option string;
  attachments : list string;
  timestamp : Z;
  edit_count : nat;
  tombstoned : bool
}.

(** Modelled from the spec: the Event record of section 3; [message_id] is
    absent for a self-contained event. *)
Record Event := MkEvent {
  ev_id : string;
  ev_type : EventType;
  message_id : option string;
  payload : string;
  ev_timestamp : Z
}.

(** Modelled from the spec: the operations an audit entry names. *)
Inductive Operation := CreateMessage | EditMessage | DeleteMessage | RecordEvent.

(** Modelled from the spec: the AuditLogEntry record of section 3. *)
Record AuditLogEntry := MkEntry {
  entry_id : nat;
  operation : Operation;
  actor : string;
  target_collection : string;
  target_id : string;
  before : option Message;
  after : option Message;
  entry_timestamp : Z
}.

(** Modelled from the spec: the three logical collections the Store
    Adapter persists into. *)
Record Store := MkStore {
  messages : gmap string Message;
  events : gmap string Event;
  audit_log : list AuditLogEntry
}.

(** Modelled from the spec: a raw inbound event before normalization; the
    source identifier and the timestamp may be absent. *)
Record RawEvent := MkRaw {
  raw_id : option string;
  raw_type : EventType;
  raw_message_id : option string;
  raw_chat_id : Z;
  raw_sender_id : Z;
  raw_text : option string;
  raw_caption : option string;
  raw_attachments : list string;
  raw_payload : string;
  raw_timestamp : option Z
}.

(** Modelled from the spec: the error taxonomy of section 7. *)
Inductive Error :=
| MalformedEventError
| ConflictError
| IndexUpdateError
| AuditWriteError.

(** Modelled from the spec: what a submission is answered with. *)
Inductive Outcome :=
| Accepted
| Rejected (existing_id : string)
| Failed (e : Error).

(** Modelled from the spec: the store-layer failures of section 7 that may
    strike during one submission. *)
Record Faults := MkFaults { store_fails : bool; audit_fails : bool }.

#[global] Instance EventType_eq : EqDecision EventType.
Proof. solve_decision. Defined.
#[global] Instance Error_eq : EqDecision Error.
Proof. solve_decision. Defined.
#[global] Instance Outcome_eq : EqDecision Outcome.
Proof. solve_decision. Defined.

(** Modelled from the spec: the Normalizer of section 4.1, pure; it fails
    when the source identifier or the timestamp is absent or malformed.  A
    [created] event targets the message carrying its own identifier. *)
Definition normalize (r : RawEvent) : Error + (Event * Message) :=
  match raw_id r, raw_timestamp r with
  | Some i, Some t =>
      if bool_decide (i = "") then inl MalformedEventError
      else
        let target :=
          match raw_type r with
          | created => Some i
          | _ => raw_message_id r
          end in
        inr (MkEvent i (raw_type r) target (raw_payload r) t,
             MkMessage (default i target) (raw_chat_id r) (raw_sender_id r)
                       (raw_text r) (raw_caption r) (raw_attachments r) t 0 false)
  | _, _ => inl MalformedEventError
  end.

(** Modelled from the spec: the Dedup/Idempotency Gate of section 4.2. *)
Inductive GateResult := accept | reject (existing_id : string).

(** Modelled from the spec: an identifier has been seen when a record
    stored under it exists. *)
Definition seen (i : string) (st : Store) : bool :=
  bool_decide (is_Some (events st !! i)) || bool_decide (is_Some (messages st !! i)).

(** Modelled from the spec: the gate's contract of section 4.2, [accept]
    for an identifier not seen, [reject] with the existing identifier
    otherwise. *)
Definition gate (i : string) (st : Store) : GateResult :=
  if seen i st then reject i else accept.

(** Modelled from the spec: one mutation, as the Audit Recorder's
    [record(operation, actor, target, before, after)] receives it. *)
Record Mutation := MkMutation {
  mu_operation : Operation;
  mu_collection : string;
  mu_target : string;
  mu_before : option Message;
  mu_after : option Message
}.

(** Modelled from the spec: a message is mutated on an edit event; the
    content changes and the edit is counted. *)
Definition edit (cand m : Message) : Message :=
  MkMessage (id m) (chat_id m) (sender_id m) (text cand) (caption cand)
            (attachments cand) (timestamp m) (S (edit_count m)) (tombstoned m).

(** Modelled from the spec: a delete event tombstones the message, which
    stays stored. *)
Definition tombstone (m : Message) : Message :=
  MkMessage (id m) (chat_id m) (sender_id m) (text m) (caption m)
            (attachments m) (timestamp m) (edit_count m) true.

(** Modelled from the spec: the lifecycle of section 3 and the
    [ConflictError] of section 4.3 (a tombstoned message refuses a mutation
    that is not a tombstone; so does an edit or delete without a stored
    target). *)
Definition plan (ev : Event) (cand : Message) (st : Store) : Error + Mutation :=
  match ev_type ev with
  | created => inr (MkMutation CreateMessage "messages" (id cand) None (Some cand))
  | edited =>
      match message_id ev with
      | Some k =>
          match messages st !! k with
          | Some m =>
              if tombstoned m then inl ConflictError
              else inr (MkMutation EditMessage "messages" k (Some m) (Some (edit cand m)))
          | None => inl ConflictError
          end
      | None => inl ConflictError
      end
  | deleted =>
      match message_id ev with
      | Some k =>
          match messages st !! k with
          | Some m => inr (MkMutation DeleteMessage "messages" k (Some m) (Some (tombstone m)))
          | None => inl ConflictError
          end
      | None => inl ConflictError
      end
  | reacted => inr (MkMutation RecordEvent "events" (ev_id ev) None None)
  end.

(** Modelled from the spec: [put] of section 4.3, an upsert keyed by
    identifier; the event itself is stored once per inbound notification. *)
Definition put (ev : Event) (mu : Mutation) (st : Store) : Store :=
  MkStore (match mu_after mu with
           | Some m => <[mu_target mu := m]> (messages st)
           | None => messages st
           end)
          (<[ev_id ev := ev]> (events st))
          (audit_log st).

(** Modelled from the spec: [record] of section 4.4, appending one entry. *)
Definition record (who : string) (now : Z) (mu : Mutation) (st : Store) : Store :=
  MkStore (messages st) (events st)
          (audit_log st ++
           [MkEntry (length (audit_log st)) (mu_operation mu) who
                    (mu_collection mu) (mu_target mu) (mu_before mu) (mu_after mu) now]).

(** Modelled from the spec: the data flow of section 2 (Normalizer, Dedup
    Gate, Store Adapter, Audit Recorder, acknowledgement).  The mutation and
    its audit write form one atomic unit: when either write fails, the
    store the submission started from is what remains. *)
Definition submit (f : Faults) (who : string) (r : RawEvent) (st : Store) : Outcome * Store :=
  match normalize r with
  | inl e => (Failed e, st)
  | inr (ev, cand) =>
      match gate (ev_id ev) st with
      | reject existing => (Rejected existing, st)
      | accept =>
          match plan ev cand st with
          | inl e => (Failed e, st)
          | inr mu =>
              if store_fails f then (Failed IndexUpdateError, st)
              else
                let st1 := put ev mu st in
                if audit_fails f then (Failed AuditWriteError, st)
                else (Accepted, record who (ev_timestamp ev) mu st1)
          end
      end
  end.

(** Modelled from the spec: a run of the pipeline over inbound events, each
    with the faults that strike it; returns the outcomes in order. *)
Fixpoint ingest (who : string) (inbound : list (Faults * RawEvent)) (st : Store)
  : list Outcome * Store :=
  match inbound with
  | [] => ([], st)
  | (f, r) :: rest =>
      let '(o, st1) := submit f who r st in
      let '(os, st2) := ingest who rest st1 in
      (o :: os, st2)
  end.

(** Modelled from the spec: the number of accepted mutations of a run, for
    the count equality of section 8. *)
Definition accepted (os : list Outcome) : nat :=
  length (filter (λ o, o = Accepted) os).

(** Modelled from the spec: the store before any submission. *)
Definition empty_store : Store := MkStore ∅ ∅ [].

(** Modelled from the spec: a submission during which no write fails. *)
Definition no_faults : Faults := MkFaults false false.

(** Modelled from the spec: the scenario's event of section 8. *)
Definition e1 : RawEvent :=
  MkRaw (Some "e1") created None 42 0 (Some "hello world") None [] "" (Some 0%Z).

(** Modelled from the spec: how many stored records of the messages
    collection carry an identifier.  The collection is taken as the storage
    layer holds it, a sequence of records: that no two of them carry the same
    identifier is what the unique constraint of section 4.2 has to
    establish. *)
Definition stored (i : string) (rows : list Message) : nat :=
  length (filter (λ m, id m = i) rows).

(** Modelled from the spec: the Store Adapter's insert-if-absent of section
    4.2, one indivisible operation of the storage layer.  Its answer is the
    gate's: [accept] with the record stored, or [reject] with the existing
    identifier and nothing stored. *)
Definition insert_if_absent (m : Message) (rows : list Message)
  : GateResult * list Message :=
  if existsb (λ m', bool_decide (id m' = id m)) rows
  then (reject (id m), rows)
  else (accept, rows ++ [m]).

(** Modelled from the spec: the ingestion paths of sections 4.2 and 5,
    sharing one store; each path holds the records it has still to submit. *)
Record Ingestion := MkIngestion {
  rows : list Message;
  paths : list (list Message)
}.

(** Modelled from the spec: one step of the system, path [w] submitting its
    next record through the atomic insert; a path with nothing to submit
    does not move. *)
Definition advance (w : nat) (sys : Ingestion) : Ingestion :=
  match paths sys !! w with
  | Some (m :: rest) =>
      MkIngestion (snd (insert_if_absent m (rows sys))) (<[w := rest]> (paths sys))
  | _ => sys
  end.

(** Modelled from the spec: concurrent submission, as the order in which
    the paths move; every interleaving is one schedule. *)
Definition interleave (schedule : list nat) (sys : Ingestion) : Ingestion :=
  foldl (λ st w, advance w st) sys schedule.

(** Modelled from the spec: a path of the check-then-insert pattern that
    sections 4.2 and 9 rule out; between its check and its insert it holds
    the record it found absent. *)
Record CheckingPath := MkCheckingPath {
  found_absent : option Message;
  to_submit : list Message
}.

(** Modelled from the spec: the system of check-then-insert paths. *)
Record CheckThenInsert := MkCheckThenInsert {
  cti_rows : list Message;
  cti_paths : list CheckingPath
}.

(** Modelled from the spec: one step of a check-then-insert path, either
    the check in application code or the insert that follows it; other
    paths may move in between. *)
Definition cti_advance (w : nat) (sys : CheckThenInsert) : CheckThenInsert :=
  match cti_paths sys !! w with
  | Some (MkCheckingPath (Some m) rest) =>
      MkCheckThenInsert (cti_rows sys ++ [m])
                        (<[w := MkCheckingPath None rest]> (cti_paths sys))
  | Some (MkCheckingPath None (m :: rest)) =>
      if existsb (λ m', bool_decide (id m' = id m)) (cti_rows sys)
      then MkCheckThenInsert (cti_rows sys)
                             (<[w := MkCheckingPath None rest]> (cti_paths sys))
      else MkCheckThenInsert (cti_rows sys)
                             (<[w := MkCheckingPath (Some m) rest]> (cti_paths sys))
  | _ => sys
  end.

(** Modelled from the spec: an interleaving of check-then-insert paths. *)
Definition cti_interleave (schedule : list nat) (sys : CheckThenInsert) : CheckThenInsert :=
  foldl (λ st w, cti_advance w st) sys schedule.

(** Modelled from the spec: the scenario's message, as two ingestion paths
    receive it. *)
Definition m1 : Message :=
  MkMessage "e1" 42 0 (Some "hello world") None [] 0 0 false.

End Core.

(** * Properties of the bootstrap script *)

Module MongoFacts.
Import Bson Mongo.

(** ** Inversion of shell computations *)

Lemma createUser_ok arg e s s' :
  createUser arg e s = Ok (tt, s') →
  ∃ u, as_document arg ≫= parse_user (db s) = Some u ∧
       user_exists (u_user u) (u_db u) (users s) = false ∧
       s' = log (EvCreateUser (u_db u) (u_user u)) (set_users (users s ++ [u]) s).
Proof.
  unfold createUser, mbind at 1, M_bind, bind, get.
  destruct (as_document arg ≫= parse_user (db s)) as [u |]; [| discriminate].
  destruct (user_exists _ _ _) eqn:Hex; [discriminate |].
  unfold modify. intros [= <-]. eauto.
Qed.

Lemma createIndex_ok coll keys options e s n s' :
  createIndex coll keys options e s = Ok (n, s') →
  ∃ key, as_document keys ≫= parse_key = Some key ∧
    let i := Index (index_name key) key (flag "unique" options) in
    let c := coll_or_empty s (db s, coll) in
    n = idx_name i ∧
    ((i ∈ coll_indexes c ∧ s' = s) ∨
     (find (λ j, bool_decide (idx_name j = idx_name i)) (coll_indexes c) = None ∧
      (idx_unique i = true → NoDup (map (index_key i) (coll_docs c))) ∧
      s' = log (EvCreateIndex (db s) coll (idx_name i))
               (set_colls (<[(db s, coll) := add_index i c]> (colls s)) s))).
Proof.
  unfold createIndex, mbind at 1, M_bind, bind, get.
  destruct (as_document keys ≫= parse_key) as [key |]; [| discriminate].
  intros H. exists key. split; [done |]. cbn zeta.
  destruct (find _ _) as [j |] eqn:Hfind.
  - case_bool_decide as Hj; [| discriminate].
    injection H as <- <-. split; [done |]. left. split; [| done].
    apply find_some in Hfind as [Hin _]. subst j. by apply list_elem_of_In.
  - destruct (is_text _ && existsb is_text _); [discriminate |].
    destruct (idx_unique _ && negb _) eqn:Hdup; [discriminate |].
    injection H as <- <-. split; [done |]. right. repeat split.
    cbn in Hdup |- *. intros Hu. rewrite Hu in Hdup. cbn in Hdup.
    apply negb_false_iff in Hdup. by apply bool_decide_eq_true in Hdup.
Qed.

Lemma mongo_ext (a b : mongo) :
  db a = db b → users a = users b → colls a = colls b →
  next_oid a = next_oid b → history a = history b → a = b.
Proof. destruct a, b. cbn. by intros -> -> -> -> ->. Qed.

Ltac norm :=
  cbn [log set_db set_users set_colls set_next_oid
       db users colls next_oid history] in *.

Lemma bind_run {A B} (c : M A) (k : A → M B) e s a s1 :
  c e s = Ok (a, s1) → (c ≫= k) e s = k a e s1.
Proof. unfold mbind, M_bind, bind. by intros ->. Qed.

Lemma createUser_runs arg e s u :
  as_document arg ≫= parse_user (db s) = Some u →
  user_exists (u_user u) (u_db u) (users s) = false →
  createUser arg e s =
    Ok (tt, log (EvCreateUser (u_db u) (u_user u)) (set_users (users s ++ [u]) s)).
Proof.
  intros Hu Hex. unfold createUser, mbind at 1, M_bind, bind, get.
  by rewrite Hu, Hex.
Qed.

Lemma createCollection_runs name e s :
  colls s !! (db s, name) = None →
  createCollection name None e s =
    Ok (tt, log (EvCreateCollection (db s) name)
              (set_colls (<[(db s, name) := empty_collection]> (colls s)) s)).
Proof.
  intros Hc. unfold createCollection, mbind at 1, M_bind, bind, get.
  by rewrite Hc.
Qed.

Lemma createIndex_runs coll keys options e s key :
  as_document keys ≫= parse_key = Some key →
  let i := Index (index_name key) key (flag "unique" options) in
  let c := coll_or_empty s (db s, coll) in
  find (λ j, bool_decide (idx_name j = idx_name i)) (coll_indexes c) = None →
  is_text i && existsb is_text (coll_indexes c) = false →
  (idx_unique i = true → NoDup (map (index_key i) (coll_docs c))) →
  createIndex coll keys options e s =
    Ok (idx_name i,
        log (EvCreateIndex (db s) coll (idx_name i))
            (set_colls (<[(db s, coll) := add_index i c]> (colls s)) s)).
Proof.
  intros Hkey i c Hfind Htext Hdup.
  unfold createIndex, mbind at 1, M_bind, bind, get. rewrite Hkey. cbn zeta.
  fold i c. rewrite Hfind, Htext.
  destruct (idx_unique i) eqn:Hu; cbn [andb]; [| done].
  by rewrite bool_decide_eq_true_2 by auto.
Qed.

(** The script runs to its end on every [ready] server. *)
Lemma mongo_init_runs e s : ready s → mongo_init e s = Ok (tt, bootstrapped s).
Proof.
  intros (Hex & Hm & Hev & Hau). unfold mongo_init.
  erewrite bind_run; [| by apply createUser_runs].
  erewrite bind_run; [| reflexivity].
  erewrite bind_run; [| reflexivity].
  erewrite bind_run; [| by apply createCollection_runs].
  erewrite bind_run;
    [| apply createCollection_runs; norm; by rewrite lookup_insert_ne].
  erewrite bind_run;
    [| apply createCollection_runs; norm; by rewrite !lookup_insert_ne].
  erewrite bind_run.
  2:{ apply createIndex_runs with (key := [("text", Text); ("caption", Text)]);
        unfold coll_or_empty; norm;
        rewrite ?lookup_insert_ne, ?lookup_insert_eq by done; done. }
  unfold ret. f_equal. f_equal.
  apply mongo_ext; unfold bootstrapped, bootstrap_events, coll_or_empty; norm;
    rewrite ?lookup_insert_ne, ?lookup_insert_eq by done; try done.
  by rewrite <- !(app_assoc _ [_] _).
Qed.

Lemma fresh_ready d0 : ready (fresh d0).
Proof. by repeat split. Qed.

Lemma bootstrapped_lookup s k :
  colls (bootstrapped s) !! k =
    if decide (k = (telegram_cache, "messages"))
    then Some (add_index text_index empty_collection)
    else if decide (k = (telegram_cache, "audit_log")) then Some empty_collection
    else if decide (k = (telegram_cache, "events")) then Some empty_collection
    else colls s !! k.
Proof.
  unfold bootstrapped. norm.
  repeat (case_decide; [subst k; by rewrite ?lookup_insert_eq |];
          rewrite lookup_insert_ne by done).
  by rewrite lookup_insert_ne by done.
Qed.

Lemma bootstrapped_old s k :
  ready s → is_Some (colls s !! k) → colls (bootstrapped s) !! k = colls s !! k.
Proof.
  intros (_ & Hm & Hev & Hau) [c Hc]. rewrite bootstrapped_lookup.
  repeat (case_decide; [subst k; congruence |]). done.
Qed.

Lemma created_indexes_app h1 h2 :
  created_indexes (h1 ++ h2) = created_indexes h1 ++ created_indexes h2.
Proof. apply flat_map_app. Qed.

Lemma created_collections_app h1 h2 :
  created_collections (h1 ++ h2) = created_collections h1 ++ created_collections h2.
Proof. apply flat_map_app. Qed.

(** ** The schema the script establishes *)

(** C2: from every server it can run on ([ready]) the script runs to its
    end, and then [messages] has one index, the text index over exactly the
    fields [text] and [caption]; the indexes of every other collection are
    what they were, and the one [createIndex] of the session is that one. *)
Theorem bootstrap_text_index e s :
  ready s →
  ∃ s', mongo_init e s = Ok (tt, s') ∧
  (∃ c, colls s' !! ("telegram_cache", "messages") = Some c ∧
        coll_indexes c =
          [Index "text_text_caption_text" [("text", Text); ("caption", Text)] false]) ∧
  (∀ k, k ≠ ("telegram_cache", "messages") →
        coll_indexes (coll_or_empty s' k) = coll_indexes (coll_or_empty s k)) ∧
  created_indexes (history s') =
    created_indexes (history s) ++
    [("telegram_cache", "messages", "text_text_caption_text")].
Proof.
  intros Hr. pose proof Hr as (_ & Hm & Hev & Hau).
  exists (bootstrapped s). split; [by apply mongo_init_runs |]. repeat split.
  - eexists. split; [apply lookup_insert_eq | done].
  - intros k Hk. unfold coll_or_empty. rewrite bootstrapped_lookup.
    rewrite decide_False by done.
    destruct (decide (k = (telegram_cache, "audit_log"))) as [-> | ?];
      [by rewrite Hau |].
    destruct (decide (k = (telegram_cache, "events"))) as [-> | ?];
      [by rewrite Hev | done].
  - unfold bootstrapped. norm. by rewrite created_indexes_app.
Qed.

Lemma bootstrap_text_index_witness :
  ∃ s', mongo_init ∅ (fresh "test") = Ok (tt, s') ∧
        ∃ c, colls s' !! ("telegram_cache", "messages") = Some c ∧
             map fst (flat_map idx_key (coll_indexes c)) = ["text"; "caption"].
Proof.
  destruct (bootstrap_text_index ∅ (fresh "test"))
    as (s' & Hrun & (c & Hc & Hi) & _); [by vm_compute |].
  exists s'. split; [exact Hrun |].
  exists c. split; [exact Hc |]. rewrite Hi. reflexivity.
Defined.

(** C3: from every server it can run on the script runs to its end and
    creates the three collections [messages], [events] and [audit_log], all
    in [telegram_cache], and no other: the server's collections after it are
    those before it and these three, which are new, and what existed is left
    as it was. *)
Theorem bootstrap_collections e s :
  ready s →
  ∃ s', mongo_init e s = Ok (tt, s') ∧
  dom (colls s') =
    dom (colls s) ∪ {[ ("telegram_cache", "messages");
                       ("telegram_cache", "events");
                       ("telegram_cache", "audit_log") ]} ∧
  colls s !! ("telegram_cache", "messages") = None ∧
  colls s !! ("telegram_cache", "events") = None ∧
  colls s !! ("telegram_cache", "audit_log") = None ∧
  (∀ k, is_Some (colls s !! k) → colls s' !! k = colls s !! k) ∧
  created_collections (history s') =
    created_collections (history s) ++
    [("telegram_cache", "messages"); ("telegram_cache", "events");
     ("telegram_cache", "audit_log")].
Proof.
  intros Hr. pose proof Hr as (_ & Hm & Hev & Hau).
  exists (bootstrapped s). split; [by apply mongo_init_runs |].
  split; [| repeat split].
  - unfold bootstrapped. norm. rewrite !dom_insert_L.
    apply set_eq. intros k. rewrite !elem_of_union, !elem_of_singleton. tauto.
  - done.
  - done.
  - done.
  - intros k Hk. by apply bootstrapped_old.
  - unfold bootstrapped. norm. by rewrite created_collections_app.
Qed.

Lemma bootstrap_collections_witness :
  ∃ s', mongo_init ∅ (fresh "admin") = Ok (tt, s') ∧
        dom (colls s') =
          ∅ ∪ {[ ("telegram_cache", "messages"); ("telegram_cache", "events");
                 ("telegram_cache", "audit_log") ]}.
Proof.
  destruct (bootstrap_collections ∅ (fresh "admin")) as (s' & Hrun & Hdom & _);
    [by vm_compute |].
  exists s'. split; [exact Hrun | exact Hdom].
Defined.

(** ** The principal *)

Lemma authorized_scope u a d :
  authorized u a d = true → ∃ r, r ∈ u_roles u ∧ role_db r = d ∧ a ∈ role_actions (role_name r).
Proof.
  unfold authorized. intros H. apply existsb_exists in H as (r & Hin & Hr).
  apply andb_true_iff in Hr as [Hd Ha].
  apply bool_decide_eq_true in Hd, Ha.
  exists r. by rewrite list_elem_of_In.
Qed.

(** C4: from every server it can run on the script runs to its end, and
    the principal it creates is granted exactly the two roles [readWrite]
    and [dbAdmin], both on [telegram_cache]; it holds no privilege on any
    other database. *)
Theorem bootstrap_roles e s :
  ready s →
  ∃ s', mongo_init e s = Ok (tt, s') ∧
  ∃ u, users s' = users s ++ [u] ∧
       u_user u = "admin" ∧
       u_roles u = [Role "readWrite" "telegram_cache"; Role "dbAdmin" "telegram_cache"] ∧
       ∀ a d, authorized u a d = true → d = "telegram_cache".
Proof.
  intros Hr. exists (bootstrapped s). split; [by apply mongo_init_runs |].
  exists (admin (db s)). repeat split.
  intros a d Ha. apply authorized_scope in Ha as (r & Hin & <- & _).
  cbn in Hin.
  repeat (apply elem_of_cons in Hin as [-> | Hin]; [done |]).
  by apply elem_of_nil in Hin.
Qed.

Lemma bootstrap_roles_witness :
  ∃ s', mongo_init ∅ (fresh "test") = Ok (tt, s') ∧
  ∃ u, users s' = [] ++ [u] ∧
       u_user u = "admin" ∧
       u_roles u = [Role "readWrite" "telegram_cache"; Role "dbAdmin" "telegram_cache"] ∧
       ∀ a d, authorized u a d = true → d = "telegram_cache".
Proof.
  apply (bootstrap_roles ∅ (fresh "test")). by vm_compute.
Defined.

(** ** Independence of the environment *)

Lemma env_free_ret {A} (a : A) : env_free (ret a).
Proof. done. Qed.

Lemma env_free_throw {A} x : env_free (@throw A x).
Proof. done. Qed.

Lemma env_free_get : env_free get.
Proof. done. Qed.

Lemma env_free_modify f : env_free (modify f).
Proof. done. Qed.

Lemma env_free_bind {A B} (c : M A) (k : A → M B) :
  env_free c → (∀ a, env_free (k a)) → env_free (c ≫= k).
Proof.
  intros Hc Hk e1 e2 s. unfold mbind, M_bind, bind.
  rewrite (Hc e1 e2 s). destruct (c e2 s) as [[a s1] | x]; [apply Hk | done].
Qed.

(** The one primitive that reads the environment is not independent of it. *)
Lemma getenv_reads name : ¬ env_free (getenv name).
Proof.
  intros H. specialize (H ∅ {[name := "x"]} (fresh "test")).
  injection H as H. rewrite lookup_empty, lookup_singleton_eq in H. discriminate.
Qed.

Lemma env_free_createUser arg : env_free (createUser arg).
Proof.
  apply env_free_bind; [apply env_free_get |]. intros s.
  destruct (as_document arg ≫= parse_user (db s)) as [u |]; [| apply env_free_throw].
  destruct (user_exists _ _ _); [apply env_free_throw | apply env_free_modify].
Qed.

Lemma env_free_createCollection name options : env_free (createCollection name options).
Proof.
  apply env_free_bind; [apply env_free_get |]. intros s.
  destruct (colls s !! _); [apply env_free_throw | apply env_free_modify].
Qed.

Lemma env_free_createIndex coll keys options : env_free (createIndex coll keys options).
Proof.
  apply env_free_bind; [apply env_free_get |]. intros s.
  destruct (as_document keys ≫= parse_key) as [key |]; [| apply env_free_throw].
  cbn zeta. destruct (find _ _).
  - case_bool_decide; [apply env_free_ret | apply env_free_throw].
  - destruct (_ && existsb _ _); [apply env_free_throw |].
    destruct (_ && negb _); [apply env_free_throw |].
    apply env_free_bind; [apply env_free_modify | intros; apply env_free_ret].
Qed.

Lemma env_free_mongo_init : env_free mongo_init.
Proof.
  unfold mongo_init, getSiblingDB, assign_db.
  apply env_free_bind; [apply env_free_createUser | intros _].
  apply env_free_bind; [apply env_free_ret | intros handle].
  apply env_free_bind; [apply env_free_modify | intros _].
  do 3 (apply env_free_bind; [apply env_free_createCollection | intros _]).
  apply env_free_bind; [apply env_free_createIndex | intros _].
  apply env_free_ret.
Qed.

(** C8: the credentials are the constants [admin] and [password]: two runs
    of the script, under any two environments and from any two servers it
    can run on, both run to their end and create a principal of that name
    with that password, and the script's result does not depend on the
    environment at all. *)
Theorem bootstrap_credentials_constant e1 e2 s1 s2 :
  ready s1 →
  ready s2 →
  (∃ s1' s2' u1 u2,
     mongo_init e1 s1 = Ok (tt, s1') ∧ mongo_init e2 s2 = Ok (tt, s2') ∧
     users s1' = users s1 ++ [u1] ∧ users s2' = users s2 ++ [u2] ∧
     u_user u1 = "admin" ∧ u_user u2 = "admin" ∧
     u_pwd u1 = "password" ∧ u_pwd u2 = "password") ∧
  mongo_init e1 s1 = mongo_init e2 s1 ∧
  mongo_init e1 s2 = mongo_init e2 s2.
Proof.
  intros H1 H2.
  split; [| split; apply env_free_mongo_init].
  exists (bootstrapped s1), (bootstrapped s2), (admin (db s1)), (admin (db s2)).
  split; [by apply mongo_init_runs |]. split; [by apply mongo_init_runs |]. done.
Qed.

Lemma bootstrap_credentials_constant_witness :
  ∃ s1' s2' u1 u2,
    mongo_init {[ "MONGO_INITDB_ROOT_PASSWORD" := "s3cret" ]} (fresh "test") = Ok (tt, s1') ∧
    mongo_init ∅ (fresh "admin") = Ok (tt, s2') ∧
    users s1' = [] ++ [u1] ∧ users s2' = [] ++ [u2] ∧
    u_user u1 = "admin" ∧ u_user u2 = "admin" ∧
    u_pwd u1 = "password" ∧ u_pwd u2 = "password".
Proof.
  apply (bootstrap_credentials_constant
           {[ "MONGO_INITDB_ROOT_PASSWORD" := "s3cret" ]} ∅
           (fresh "test") (fresh "admin"));
    by vm_compute.
Defined.

(** ** Order of the steps *)

(** C9: from every server it can run on, the script's steps run in a
    fixed order, user creation first and in the database the shell starts
    in, then the switch to [telegram_cache], then the collections and the
    index there; so the principal is defined in the starting database while
    both of its roles are on [telegram_cache]. *)
Theorem bootstrap_order e s :
  ready s →
  ∃ s', mongo_init e s = Ok (tt, s') ∧
  history s' =
    history s ++
    [ EvCreateUser (db s) "admin";
      EvSetDb "telegram_cache";
      EvCreateCollection "telegram_cache" "messages";
      EvCreateCollection "telegram_cache" "events";
      EvCreateCollection "telegram_cache" "audit_log";
      EvCreateIndex "telegram_cache" "messages" "text_text_caption_text" ] ∧
  db s' = "telegram_cache" ∧
  ∃ u, users s' = users s ++ [u] ∧
       u_db u = db s ∧
       Forall (λ r, role_db r = "telegram_cache") (u_roles u) ∧
       length (u_roles u) = 2.
Proof.
  intros Hr. exists (bootstrapped s). split; [by apply mongo_init_runs |].
  split; [done |]. split; [done |].
  exists (admin (db s)). repeat split. cbn. by repeat constructor.
Qed.

Lemma bootstrap_order_witness :
  ∃ s', mongo_init ∅ (fresh "test") = Ok (tt, s') ∧
        db s' = "telegram_cache" ∧
        ∃ u, users s' = [] ++ [u] ∧
             u_db u = "test" ∧
             Forall (λ r, role_db r = "telegram_cache") (u_roles u) ∧
             length (u_roles u) = 2.
Proof.
  destruct (bootstrap_order ∅ (fresh "test")) as (s' & Hrun & _ & Hdb & Hu);
    [by vm_compute |].
  exists s'. split; [exact Hrun |]. split; [exact Hdb | exact Hu].
Defined.

(** ** Client operations *)

Lemma insertOne_runs matches coll doc e s :
  let c := coll_or_empty s (db s, coll) in
  let d := fst (with_id (next_oid s) doc) in
  valid matches c d = true →
  doc_id d ∉ map doc_id (coll_docs c) →
  (∀ i, i ∈ coll_indexes c → collides (coll_docs c) d i = false) →
  insertOne matches coll doc e s =
    Ok (doc_id d,
        set_next_oid (snd (with_id (next_oid s) doc))
          (set_colls (<[(db s, coll) := add_doc d c]> (colls s)) s)).
Proof.
  intros c d Hv Hid Hix. unfold insertOne, mbind at 1, M_bind, bind, get. cbn zeta.
  fold c d. rewrite Hv. cbn [negb].
  destruct (existsb _ _) eqn:Hex.
  { exfalso. apply Hid. apply existsb_exists in Hex as (d' & Hin & Hd').
    apply bool_decide_eq_true in Hd'. apply list_elem_of_In, in_map_iff. eauto. }
  destruct (find _ _) as [i |] eqn:Hfind; [| done].
  apply find_some in Hfind as [Hin Hc]. apply list_elem_of_In in Hin.
  rewrite Hix in Hc by done. discriminate.
Qed.

Lemma insertOne_unconstrained matches coll doc e s c :
  colls s !! (db s, coll) = Some c →
  unconstrained c →
  get_field "_id" doc = None →
  Some (VOid (next_oid s)) ∉ map doc_id (coll_docs c) →
  insertOne matches coll doc e s =
    Ok (Some (VOid (next_oid s)),
        set_next_oid (N.succ (next_oid s))
          (set_colls (<[(db s, coll) := add_doc (("_id", VOid (next_oid s)) :: doc) c]>
                        (colls s)) s)).
Proof.
  intros Hc (Hval & _ & Hix) Hdoc Hfresh.
  assert (with_id (next_oid s) doc
          = (("_id", VOid (next_oid s)) :: doc, N.succ (next_oid s))) as Hw
    by (unfold with_id; by rewrite Hdoc).
  assert (coll_or_empty s (db s, coll) = c) as Hcoll
    by (unfold coll_or_empty; by rewrite Hc).
  rewrite insertOne_runs; rewrite Hw, Hcoll; cbn [fst snd]; try done.
  - unfold valid. by rewrite Hval.
  - intros i Hi. rewrite Forall_forall in Hix. unfold collides. by rewrite Hix.
Qed.

Lemma as_user_runs {A} user authdb a (c : M A) e s u :
  find (λ u, bool_decide (u_user u = user) && bool_decide (u_db u = authdb)) (users s)
    = Some u →
  authorized u a (db s) = true →
  as_user user authdb a c e s = c e s.
Proof.
  intros Hu Ha. unfold as_user, mbind, M_bind, bind, get. by rewrite Hu, Ha.
Qed.

Lemma find_skip {A} (f : A → bool) (l l' : list A) :
  existsb f l = false → find f (l ++ l') = find f l'.
Proof.
  induction l as [| x l IH]; [done |]. cbn. intros H.
  apply orb_false_iff in H as [-> H]. by apply IH.
Qed.

(** ** What the storage layer does not enforce *)

Lemma deleteOne_last coll id d e s c :
  colls s !! (db s, coll) = Some c →
  coll_capped c = false →
  coll_docs c = [d] →
  doc_id d = Some id →
  deleteOne coll id e s =
    Ok (1, set_colls (<[(db s, coll) := set_docs [] c]> (colls s)) s).
Proof.
  intros Hc Hcap Hd Hid. unfold deleteOne, mbind at 1, M_bind, bind, get.
  rewrite Hc, Hcap, Hd. cbn. rewrite bool_decide_eq_true_2 by done. done.
Qed.

(** C10: when [telegram_cache] is new, every collection it holds after the
    script is unconstrained: no validator, not capped, no unique index, so
    nothing but the default [_id] index is enforced.  In particular no
    index of [messages] is on the field [id], and a document with the same
    [id] is stored twice; and [audit_log] is not append-only: the created
    principal deletes an entry it holds. *)
Theorem bootstrap_unconstrained e s :
  ready s →
  (∀ n, colls s !! ("telegram_cache", n) = None) →
  ∃ s', mongo_init e s = Ok (tt, s') ∧
  (∀ n c, colls s' !! ("telegram_cache", n) = Some c → unconstrained c) ∧
  (∃ m, colls s' !! ("telegram_cache", "messages") = Some m ∧
        Forall (λ i, "id" ∉ map fst (idx_key i)) (coll_indexes m)) ∧
  (∀ matches e1 v, ∃ r s2,
     (insertOne matches "messages" [("id", v)];;
      insertOne matches "messages" [("id", v)]) e1 s' = Ok (r, s2) ∧
     count_field "id" v (coll_or_empty s2 ("telegram_cache", "messages")) = 2) ∧
  (∀ matches e1 e2 entry, ∃ id s1 s2,
     insertOne matches "audit_log" entry e1 s' = Ok (Some id, s1) ∧
     as_user "admin" (db s) Remove (deleteOne "audit_log" id) e2 s1 = Ok (1, s2) ∧
     colls s2 !! ("telegram_cache", "audit_log") = Some empty_collection).
Proof.
  intros Hr Hnew. pose proof Hr as (Hex & Hm & Hev & Hau).
  exists (bootstrapped s). split; [by apply mongo_init_runs |].
  split; [| split; [| split]].
  - intros n c. rewrite bootstrapped_lookup.
    repeat (case_decide; [intros [= <-]; by repeat constructor |]).
    by rewrite Hnew.
  - eexists. split; [apply lookup_insert_eq |]. cbn.
    constructor; [| constructor]. cbn. intros Hin.
    repeat (apply elem_of_cons in Hin as [Hin | Hin]; [discriminate |]).
    by apply elem_of_nil in Hin.
  - intros matches e1 v.
    pose (c0 := add_index text_index empty_collection).
    pose (d1 := [("_id", VOid (next_oid s)); ("id", v)] : document).
    pose (d2 := [("_id", VOid (N.succ (next_oid s))); ("id", v)] : document).
    eexists _, _. split.
    + erewrite bind_run.
      2:{ apply (insertOne_unconstrained _ _ _ _ _ c0); try done.
          - apply lookup_insert_eq.
          - by repeat constructor.
          - apply not_elem_of_nil. }
      apply (insertOne_unconstrained _ _ _ _ _ (add_doc d1 c0)); try done.
      * norm. apply lookup_insert_eq.
      * by repeat constructor.
      * norm. cbn. intros Hin. apply list_elem_of_singleton in Hin.
        injection Hin. lia.
    + unfold coll_or_empty. norm. rewrite lookup_insert_eq.
      change (length (filter (λ d, get_field "id" d = Some v) [d1; d2]) = 2).
      by rewrite !filter_cons, !decide_True by done.
  - intros matches e1 e2 entry.
    set (d := fst (with_id (next_oid s) entry)).
    assert (∃ id, doc_id d = Some id) as [id Hid].
    { unfold d, with_id, doc_id. destruct (get_field "_id" entry) eqn:Hf; cbn; eauto. }
    assert (coll_or_empty (bootstrapped s) (db (bootstrapped s), "audit_log")
            = empty_collection) as Hc.
    { unfold coll_or_empty. cbn [db bootstrapped]. by rewrite bootstrapped_lookup. }
    exists id. eexists _, _. split; [| split].
    + rewrite insertOne_runs; rewrite Hc; cbn [next_oid bootstrapped]; fold d.
      * by rewrite Hid.
      * done.
      * apply not_elem_of_nil.
      * intros i Hi. by apply elem_of_nil in Hi.
    + rewrite (as_user_runs _ _ _ _ _ _ (admin (db s))).
      * apply (deleteOne_last _ _ d); norm; [apply lookup_insert_eq | done..].
      * norm. cbn [users bootstrapped]. rewrite find_skip by exact Hex. cbn.
        by rewrite !bool_decide_eq_true_2 by done.
      * done.
    + norm. by rewrite insert_insert_eq, lookup_insert_eq.
Qed.

Lemma bootstrap_unconstrained_witness :
  ∃ s', mongo_init ∅ (fresh "test") = Ok (tt, s') ∧
  ∃ m, colls s' !! ("telegram_cache", "messages") = Some m ∧
       Forall (λ i, "id" ∉ map fst (idx_key i)) (coll_indexes m).
Proof.
  destruct (bootstrap_unconstrained ∅ (fresh "test")) as (s' & Hrun & _ & Hm & _);
    [by vm_compute | intros n; apply lookup_empty |].
  exists s'. split; [exact Hrun | exact Hm].
Defined.

(** ** The script statement by statement *)

Lemma createUser_fails arg e s u :
  as_document arg ≫= parse_user (db s) = Some u →
  user_exists (u_user u) (u_db u) (users s) = true →
  createUser arg e s = Err (UserAlreadyExists (u_user u) (u_db u)).
Proof.
  intros Hu Hex. unfold createUser, mbind at 1, M_bind, bind, get.
  by rewrite Hu, Hex.
Qed.

Lemma createUser_err arg e s x :
  createUser arg e s = Err x →
  (as_document arg ≫= parse_user (db s) = None ∧ x = BadValue "createUser") ∨
  (∃ u, as_document arg ≫= parse_user (db s) = Some u ∧
        user_exists (u_user u) (u_db u) (users s) = true ∧
        x = UserAlreadyExists (u_user u) (u_db u)).
Proof.
  unfold createUser, mbind at 1, M_bind, bind, get.
  destruct (as_document arg ≫= parse_user (db s)) as [u |]; [| intros [= <-]; by left].
  destruct (user_exists _ _ _) eqn:Hex; [| discriminate].
  intros [= <-]. right. eauto.
Qed.

(** The statements after the first neither add nor remove a user, and stay
    on the database they run on. *)
Lemma createCollection_frame name options e s s' :
  createCollection name options e s = Ok (tt, s') →
  users s' = users s ∧ db s' = db s.
Proof.
  unfold createCollection, mbind at 1, M_bind, bind, get.
  destruct (colls s !! (db s, name)); [discriminate |].
  unfold modify. by intros [= <-].
Qed.

Lemma createIndex_frame coll keys options e s n s' :
  createIndex coll keys options e s = Ok (n, s') →
  users s' = users s ∧ db s' = db s.
Proof.
  intros H. apply createIndex_ok in H as (key & _ & _ & [[_ ->] | (_ & _ & ->)]); done.
Qed.

Lemma then_unfold {A B} (c : M A) (k : A → M B) e s :
  (c ≫= k) e s =
    match c e s with
    | Ok (a, s1) => k a e s1
    | Err x => Err x
    end.
Proof. reflexivity. Qed.

(** Running the statements one by one is running the script. *)
Lemma run_statements_agrees e s :
  mongo_init e s =
    match run_statements mongo_init_statements e s with
    | (None, s') => Ok (tt, s')
    | (Some x, _) => Err x
    end.
Proof.
  unfold mongo_init, mongo_init_statements. cbn [run_statements].
  rewrite then_unfold.
  destruct (createUser _ e s) as [[[] s1] | x]; [| reflexivity].
  set (s2 := log (EvSetDb "telegram_cache") (set_db "telegram_cache" s1)).
  change ((getSiblingDB "telegram_cache" ≫= assign_db) e s1) with (Ok (tt, s2)).
  rewrite (bind_run _ _ _ _ _ _
             (eq_refl : getSiblingDB "telegram_cache" e s1 = Ok ("telegram_cache", s1))).
  rewrite (bind_run _ _ _ _ _ _
             (eq_refl : assign_db "telegram_cache" e s1 = Ok (tt, s2))).
  cbv iota beta. rewrite then_unfold.
  destruct (createCollection "messages" None e s2) as [[[] s3] | x]; [| reflexivity].
  rewrite then_unfold.
  destruct (createCollection "events" None e s3) as [[[] s4] | x]; [| reflexivity].
  rewrite then_unfold.
  destruct (createCollection "audit_log" None e s4) as [[[] s5] | x]; [| reflexivity].
  rewrite !then_unfold.
  destruct (createIndex _ _ _ e s5) as [[n s6] | x]; reflexivity.
Qed.

(** With [admin] already defined in the starting database the first
    statement fails, and nothing has been done. *)
Lemma run_statements_user_exists e s :
  user_exists "admin" (db s) (users s) = true →
  run_statements mongo_init_statements e s =
    (Some (UserAlreadyExists "admin" (db s)), s).
Proof.
  intros Hex. unfold mongo_init_statements. cbn [run_statements].
  by rewrite (createUser_fails _ _ _ (admin (db s))).
Qed.

(** X1: when a user [admin] already exists in the database the shell starts
    in, the script stops at its first statement with [UserAlreadyExists],
    and the server is left untouched. *)
Theorem bootstrap_existing_user e s :
  user_exists "admin" (db s) (users s) = true →
  mongo_init e s = Err (UserAlreadyExists "admin" (db s)) ∧
  run_statements mongo_init_statements e s =
    (Some (UserAlreadyExists "admin" (db s)), s).
Proof.
  intros Hex. split; [| by apply run_statements_user_exists].
  by rewrite run_statements_agrees, run_statements_user_exists.
Qed.

Lemma bootstrap_existing_user_witness :
  mongo_init ∅ (set_users [User "admin" "other" "test" []] (fresh "test"))
  = Err (UserAlreadyExists "admin" "test").
Proof.
  apply (bootstrap_existing_user ∅ (set_users [User "admin" "other" "test" []] (fresh "test"))).
  reflexivity.
Defined.

(** X2: the script is not atomic.  When it stops on an error, either the
    error is the existing user of the first statement and the server is
    untouched, or a later statement failed, and then the user [admin] has
    been created all the same and the shell is on [telegram_cache]. *)
Theorem bootstrap_not_atomic e s x s1 :
  run_statements mongo_init_statements e s = (Some x, s1) →
  (x = UserAlreadyExists "admin" (db s) ∧ s1 = s) ∨
  (user_exists "admin" (db s) (users s) = false ∧
   users s1 = users s ++ [admin (db s)] ∧
   db s1 = "telegram_cache").
Proof.
  unfold mongo_init_statements. cbn [run_statements].
  destruct (createUser _ e s) as [[[] s0] | x0] eqn:H0.
  2:{ intros [= <- <-]. left. split; [| done].
      apply createUser_err in H0 as [[Hnone _] | (u & Hu & _ & ->)]; [discriminate |].
      cbn in Hu. by injection Hu as <-. }
  apply createUser_ok in H0 as (u & Hu & Hex & ->).
  cbn in Hu. injection Hu as <-. cbn [u_user u_db admin] in Hex.
  set (s2 := log (EvSetDb "telegram_cache")
               (set_db "telegram_cache"
                  (log (EvCreateUser (db s) "admin")
                       (set_users (users s ++ [admin (db s)]) s)))).
  change ((getSiblingDB "telegram_cache" ≫= assign_db) e _) with (Ok (tt, s2)).
  cbv iota beta.
  assert (users s2 = users s ++ [admin (db s)] ∧ db s2 = "telegram_cache") as [Hu2 Hd2]
    by done.
  clearbody s2.
  destruct (createCollection "messages" None e s2) as [[[] s3] | x3] eqn:H3;
    [| intros [= <- <-]; by right].
  apply createCollection_frame in H3 as [Hu3 Hd3].
  destruct (createCollection "events" None e s3) as [[[] s4] | x4] eqn:H4;
    [| intros [= <- <-]; right; repeat split; congruence].
  apply createCollection_frame in H4 as [Hu4 Hd4].
  destruct (createCollection "audit_log" None e s4) as [[[] s5] | x5] eqn:H5;
    [| intros [= <- <-]; right; repeat split; congruence].
  apply createCollection_frame in H5 as [Hu5 Hd5].
  rewrite then_unfold.
  destruct (createIndex _ _ _ e s5) as [[n s6] | x6] eqn:H6; [discriminate |].
  intros [= <- <-]. right. repeat split; congruence.
Qed.

Lemma bootstrap_not_atomic_witness :
  users (snd (run_statements mongo_init_statements ∅
                (set_colls {[ ("telegram_cache", "events") := Collection None true [] [] ]}
                           (fresh "test"))))
  = [] ++ [admin "test"].
Proof.
  destruct (bootstrap_not_atomic ∅
              (set_colls {[ ("telegram_cache", "events") := Collection None true [] [] ]}
                         (fresh "test"))
              (NamespaceExists "telegram_cache" "events")
              (snd (run_statements mongo_init_statements ∅
                      (set_colls {[ ("telegram_cache", "events")
                                    := Collection None true [] [] ]}
                                 (fresh "test")))))
    as [[Hx _] | (_ & Hu & _)]; [by vm_compute | discriminate | exact Hu].
Defined.

(** X3: the script cannot be run twice from the same starting database.
    After a completed run, a second run by a shell that starts where the
    first one started stops at its first statement with
    [UserAlreadyExists] and changes nothing. *)
Theorem bootstrap_not_rerunnable e e' s :
  ready s →
  ∃ s', mongo_init e s = Ok (tt, s') ∧
        mongo_init e' (set_db (db s) s') = Err (UserAlreadyExists "admin" (db s)) ∧
        run_statements mongo_init_statements e' (set_db (db s) s') =
          (Some (UserAlreadyExists "admin" (db s)), set_db (db s) s').
Proof.
  intros Hr. exists (bootstrapped s). split; [by apply mongo_init_runs |].
  assert (user_exists "admin" (db (set_db (db s) (bootstrapped s)))
                      (users (set_db (db s) (bootstrapped s))) = true) as Hex.
  { cbn [db users set_db bootstrapped]. unfold user_exists. rewrite existsb_app.
    cbn [existsb admin u_user u_db]. rewrite !bool_decide_eq_true_2 by done.
    by rewrite orb_true_r. }
  split.
  - rewrite run_statements_agrees, (run_statements_user_exists _ _ Hex). done.
  - by rewrite (run_statements_user_exists _ _ Hex).
Qed.

Lemma bootstrap_not_rerunnable_witness :
  ∃ s', mongo_init ∅ (fresh "test") = Ok (tt, s') ∧
        mongo_init ∅ (set_db "test" s') = Err (UserAlreadyExists "admin" "test").
Proof.
  destruct (bootstrap_not_rerunnable ∅ ∅ (fresh "test")) as (s' & Hrun & Herr & _);
    [by vm_compute |].
  exists s'. split; [exact Hrun | exact Herr].
Defined.

Lemma admin_authorized d0 a :
  authorized (admin d0) a telegram_cache = true.
Proof. by destruct a. Qed.

(** X4: the principal can be used only through the database the shell
    started in.  After the script, acting as [admin] of the starting
    database is allowed for every action on [telegram_cache]; acting as
    [admin] of [telegram_cache] is refused when the shell started elsewhere
    and no such user existed before. *)
Theorem principal_database {A} e s (a : action) (c : M A) e' :
  ready s →
  ∃ s', mongo_init e s = Ok (tt, s') ∧
        as_user "admin" (db s) a c e' s' = c e' s' ∧
        (db s ≠ "telegram_cache" →
         user_exists "admin" "telegram_cache" (users s) = false →
         as_user "admin" "telegram_cache" a c e' s' = Err Unauthorized).
Proof.
  intros Hr. pose proof Hr as (Hex & _).
  exists (bootstrapped s). split; [by apply mongo_init_runs |]. split.
  - apply (as_user_runs _ _ _ _ _ _ (admin (db s))); [| apply admin_authorized].
    cbn [users bootstrapped]. rewrite find_skip by exact Hex.
    cbn [find admin u_user u_db]. by rewrite !bool_decide_eq_true_2 by done.
  - intros Hne Hnone. unfold as_user, mbind, M_bind, bind, get.
    cbn [users bootstrapped]. rewrite find_skip by exact Hnone.
    cbn [find admin u_user u_db].
    rewrite (bool_decide_eq_false_2 (db s = "telegram_cache")) by done.
    by rewrite andb_false_r.
Qed.

Lemma principal_database_witness :
  ∃ s', mongo_init ∅ (fresh "test") = Ok (tt, s') ∧
        as_user "admin" "telegram_cache" Find (ret tt) ∅ s' = Err Unauthorized.
Proof.
  destruct (principal_database ∅ (fresh "test") Find (ret tt) ∅)
    as (s' & Hrun & _ & Hno); [by vm_compute |].
  exists s'. split; [exact Hrun |]. apply Hno; [discriminate | reflexivity].
Defined.

(** X5: the script stores no document and touches no collection outside
    [telegram_cache]: after it every collection holds the documents it held
    before (the new ones none), the identifier counter is where it was, and
    the collections of every other database are unchanged. *)
Theorem bootstrap_frame e s :
  ready s →
  ∃ s', mongo_init e s = Ok (tt, s') ∧
        (∀ k, coll_docs (coll_or_empty s' k) = coll_docs (coll_or_empty s k)) ∧
        next_oid s' = next_oid s ∧
        (∀ d n, d ≠ "telegram_cache" → colls s' !! (d, n) = colls s !! (d, n)).
Proof.
  intros Hr. pose proof Hr as (_ & Hm & Hev & Hau).
  exists (bootstrapped s). split; [by apply mongo_init_runs |].
  split; [| split; [done |]].
  - intros k. unfold coll_or_empty. rewrite bootstrapped_lookup.
    destruct (decide (k = (telegram_cache, "messages"))) as [-> | ?];
      [by rewrite Hm |].
    destruct (decide (k = (telegram_cache, "audit_log"))) as [-> | ?];
      [by rewrite Hau |].
    destruct (decide (k = (telegram_cache, "events"))) as [-> | ?];
      [by rewrite Hev | done].
  - intros d n Hd. rewrite bootstrapped_lookup.
    rewrite !decide_False; [done | intros [= Heq _]; exact (Hd Heq) ..].
Qed.

Lemma bootstrap_frame_witness :
  ∃ s', mongo_init ∅ (fresh "test") = Ok (tt, s') ∧ next_oid s' = 0%N.
Proof.
  destruct (bootstrap_frame ∅ (fresh "test")) as (s' & Hrun & _ & Hoid & _);
    [by vm_compute |].
  exists s'. split; [exact Hrun | exact Hoid].
Defined.

(** X8: the text index the script creates is the only text index
    [messages] can have.  After the script, a [createIndex] without options
    on [messages] whose key has a text field changes nothing and returns
    the index's name when the key is the script's, and is refused when the
    key is any other. *)
Theorem text_index_exclusive e s keys key e' :
  ready s →
  as_document keys ≫= parse_key = Some key →
  existsb (λ fk, bool_decide (snd fk = Text)) key = true →
  ∃ s', mongo_init e s = Ok (tt, s') ∧
        if decide (key = [("text", Text); ("caption", Text)])
        then createIndex "messages" keys None e' s' = Ok ("text_text_caption_text", s')
        else ∃ x, createIndex "messages" keys None e' s' = Err x.
Proof.
  intros Hr Hkey Htext.
  exists (bootstrapped s). split; [by apply mongo_init_runs |].
  destruct (decide (key = [("text", Text); ("caption", Text)])) as [-> | Hother].
  - unfold createIndex, mbind at 1, M_bind, bind, get. rewrite Hkey. cbn zeta.
    unfold coll_or_empty. cbn [db colls bootstrapped]. rewrite lookup_insert_eq.
    reflexivity.
  - eexists.
    unfold createIndex, mbind at 1, M_bind, bind, get. rewrite Hkey. cbn zeta.
    unfold coll_or_empty. cbn [db colls bootstrapped]. rewrite lookup_insert_eq.
    change (coll_indexes (default empty_collection
                            (Some (add_index text_index empty_collection))))
      with [text_index].
    set (i := Index (index_name key) key (flag "unique" None)).
    assert (text_index ≠ i) as Hi by (intros [= _ Hk]; by apply Hother).
    cbn [find].
    destruct (decide (idx_name text_index = idx_name i)) as [Hname | Hname].
    + rewrite (bool_decide_eq_true_2 _ Hname).
      rewrite (bool_decide_eq_false_2 _ Hi). reflexivity.
    + rewrite (bool_decide_eq_false_2 _ Hname).
      unfold is_text at 1. unfold i at 1. cbn [idx_key].
      rewrite Htext. reflexivity.
Qed.

Lemma text_index_exclusive_witness :
  ∃ s', mongo_init ∅ (fresh "test") = Ok (tt, s') ∧
        ∃ x, createIndex "messages" (VDoc [("body", VStr "text")]) None ∅ s' = Err x.
Proof.
  apply (text_index_exclusive ∅ (fresh "test") (VDoc [("body", VStr "text")])
                              [("body", Text)] ∅); by vm_compute.
Defined.

End MongoFacts.

(** * Properties of the container build *)

Module DockerfileFacts.
Import Dockerfile.

(** C7: the build installs the compiler [gcc] with the system package
    manager and the packages of [requirements.txt] with [pip], sets
    [PYTHONUNBUFFERED=1] and [PYTHONPATH=/app], and starts one process,
    [python main.py], given in exec form by the file's only start
    instruction; the base image is assumed to bring no entry point of its
    own. *)
Theorem container_build (pull : string → image) :
  entrypoint (pull "python:3.11-slim") = None →
  let img := build pull dockerfile in
  (∃ own, steps img = steps (pull "python:3.11-slim") ++ own ∧
          flat_map apt_packages (commands_run own) = ["gcc"] ∧
          flat_map pip_requirements (commands_run own) = ["requirements.txt"] ∧
          Copied "/app" "requirements.txt" "." ∈ own) ∧
  env img !! "PYTHONUNBUFFERED" = Some "1" ∧
  env img !! "PYTHONPATH" = Some "/app" ∧
  cmd img = Some ["python"; "main.py"] ∧
  start_argv img = ["python"; "main.py"] ∧
  filter (λ i, sets_start i = true) dockerfile = [CMD ["python"; "main.py"]].
Proof.
  intros Hep img. subst img. unfold build, dockerfile.
  cbn [foldl exec map workdir env steps cmd entrypoint].
  split; [| split; [| split; [| split; [| split]]]].
  - eexists. split; [by rewrite <- !(app_assoc (steps _)) |].
    split; [reflexivity |]. split; [reflexivity |].
    cbn [app]. do 3 (apply elem_of_cons; right). apply elem_of_cons. by left.
  - rewrite lookup_insert_ne by done. apply lookup_insert_eq.
  - apply lookup_insert_eq.
  - reflexivity.
  - unfold start_argv. cbn [entrypoint cmd]. by rewrite Hep.
  - reflexivity.
Qed.

Lemma container_build_witness :
  start_argv (build (λ _, scratch) dockerfile) = ["python"; "main.py"].
Proof.
  apply (container_build (λ _, scratch)). reflexivity.
Defined.

Lemma build_dockerfile (pull : string → image) :
  build pull dockerfile =
    Image "/app"
          (<["PYTHONPATH" := "/app"]>
             (<["PYTHONUNBUFFERED" := "1"]> (env (pull "python:3.11-slim"))))
          (steps (pull "python:3.11-slim") ++
           [ Ran "/app" ["apt-get"; "update"];
             Ran "/app" ["apt-get"; "install"; "-y"; "gcc"];
             Ran "/app" ["rm"; "-rf"; "/var/lib/apt/lists/*"];
             Copied "/app" "requirements.txt" ".";
             Ran "/app" ["pip"; "install"; "--no-cache-dir"; "-r"; "requirements.txt"];
             Copied "/app" "." ".";
             Ran "/app" ["mkdir"; "-p"; "logs"; "data"] ])
          (Some ["python"; "main.py"])
          (entrypoint (pull "python:3.11-slim")).
Proof.
  unfold build, dockerfile.
  cbn [foldl exec map workdir env steps cmd entrypoint].
  f_equal. by rewrite <- !(app_assoc (steps _)).
Qed.

(** X6: what the build takes from the base image and what it overrides.
    Whatever the base image is, its environment is kept except for the two
    variables the file sets, its build steps are kept, its entry point is
    kept and receives [python main.py] as arguments, and its default
    command and working directory are replaced. *)
Theorem container_over_base (pull : string → image) :
  let base := pull "python:3.11-slim" in
  let img := build pull dockerfile in
  (∀ k, k ≠ "PYTHONUNBUFFERED" → k ≠ "PYTHONPATH" → env img !! k = env base !! k) ∧
  entrypoint img = entrypoint base ∧
  start_argv img = default [] (entrypoint base) ++ ["python"; "main.py"] ∧
  cmd img = Some ["python"; "main.py"] ∧
  workdir img = "/app" ∧
  ∃ own, steps img = steps base ++ own ∧ length own = 7.
Proof.
  cbn zeta. rewrite build_dockerfile. cbn [env entrypoint cmd workdir steps].
  split; [| repeat split].
  - intros k H1 H2. by rewrite !lookup_insert_ne.
  - eexists. split; [reflexivity | reflexivity].
Qed.

(** X7: the order and the place of the build steps.  Every step the file
    adds runs in [/app], which is also the import path; the compiler is
    installed before the package manager's lists are removed and before
    [pip] runs; [requirements.txt] is copied before [pip] runs; and the
    source tree is copied only after [pip] has run. *)
Theorem container_step_order (pull : string → image) :
  let img := build pull dockerfile in
  let gcc := Ran "/app" ["apt-get"; "install"; "-y"; "gcc"] in
  let pip := Ran "/app" ["pip"; "install"; "--no-cache-dir"; "-r"; "requirements.txt"] in
  ∃ own, steps img = steps (pull "python:3.11-slim") ++ own ∧
         Forall (λ st, step_cwd st = "/app") own ∧
         env img !! "PYTHONPATH" = Some (workdir img) ∧
         precedes (Ran "/app" ["apt-get"; "update"]) gcc own ∧
         precedes gcc (Ran "/app" ["rm"; "-rf"; "/var/lib/apt/lists/*"]) own ∧
         precedes gcc pip own ∧
         precedes (Copied "/app" "requirements.txt" ".") pip own ∧
         precedes pip (Copied "/app" "." ".") own.
Proof.
  cbn zeta. rewrite build_dockerfile. cbn [env workdir steps].
  eexists. split; [reflexivity |]. split; [by repeat constructor |].
  split; [apply lookup_insert_eq |].
  repeat split.
  - eexists [], [], _. reflexivity.
  - eexists [_], [], _. reflexivity.
  - eexists [_], [_; _], _. reflexivity.
  - eexists [_; _; _], [], _. reflexivity.
  - eexists [_; _; _; _], [], _. reflexivity.
Qed.

End DockerfileFacts.

(** * Properties of the ingestion pipeline *)

Module CoreFacts.
Import Core.

Lemma normalize_id r ev cand :
  normalize r = inr (ev, cand) →
  raw_id r = Some (ev_id ev) ∧
  (ev_type ev = created → id cand = ev_id ev).
Proof.
  unfold normalize.
  destruct (raw_id r) as [i |]; [| discriminate].
  destruct (raw_timestamp r) as [t |]; [| discriminate].
  case_bool_decide; [discriminate |]. intros [= <- <-]. cbn.
  split; [done |]. by intros ->.
Qed.

(** A submission is either accepted, with the mutation stored and its
    entry appended, or it leaves the store as it was. *)
Lemma submit_cases f who r st :
  (∃ ev cand mu,
     normalize r = inr (ev, cand) ∧ seen (ev_id ev) st = false ∧
     plan ev cand st = inr mu ∧
     submit f who r st = (Accepted, record who (ev_timestamp ev) mu (put ev mu st))) ∨
  (fst (submit f who r st) ≠ Accepted ∧ snd (submit f who r st) = st).
Proof.
  unfold submit, gate.
  destruct (normalize r) as [x | [ev cand]]; [by right |].
  destruct (seen (ev_id ev) st) eqn:Hseen; [by right |].
  destruct (plan ev cand st) as [x | mu] eqn:Hplan; [by right |].
  destruct (store_fails f); [by right |].
  destruct (audit_fails f); [by right |].
  left. by exists ev, cand, mu.
Qed.

Lemma seen_false i st :
  seen i st = false → events st !! i = None ∧ messages st !! i = None.
Proof.
  unfold seen. intros H. apply orb_false_iff in H as [He Hm].
  apply bool_decide_eq_false in He, Hm.
  split; apply eq_None_not_Some; done.
Qed.

(** What a planned mutation says about the store it was planned on. *)
Lemma plan_sound ev cand st mu :
  plan ev cand st = inr mu →
  (ev_type ev = created → messages st !! id cand = None) →
  (mu_collection mu = "messages" ∧ mu_before mu = messages st !! mu_target mu ∧
   is_Some (mu_after mu)) ∨
  (mu_collection mu = "events" ∧ mu_after mu = None).
Proof.
  unfold plan. intros H Hnew. destruct (ev_type ev).
  - injection H as <-. left. cbn. rewrite Hnew by done. eauto.
  - destruct (message_id ev) as [k |]; [| discriminate].
    destruct (messages st !! k) as [m |] eqn:Hk; [| discriminate].
    destruct (tombstoned m); [discriminate |].
    injection H as <-. left. cbn. eauto.
  - destruct (message_id ev) as [k |]; [| discriminate].
    destruct (messages st !! k) as [m |] eqn:Hk; [| discriminate].
    injection H as <-. left. cbn. eauto.
  - injection H as <-. by right.
Qed.

(** Every run answers each inbound event, and the audit log and the event
    collection grow by the number of accepted submissions. *)
Lemma ingest_counts who inbound : ∀ st,
  length (fst (ingest who inbound st)) = length inbound ∧
  length (audit_log (snd (ingest who inbound st))) =
    length (audit_log st) + accepted (fst (ingest who inbound st)) ∧
  size (events (snd (ingest who inbound st))) =
    size (events st) + accepted (fst (ingest who inbound st)).
Proof.
  induction inbound as [| [f r] rest IH]; intros st.
  - cbn. unfold accepted. cbn. lia.
  - cbn [ingest].
    destruct (submit f who r st) as [o st1] eqn:Hs.
    specialize (IH st1). destruct (ingest who rest st1) as [os st2]. cbn [fst snd] in *.
    destruct IH as (Hlen & Haud & Hev). split; [cbn; lia |].
    unfold accepted in *. rewrite filter_cons.
    destruct (submit_cases f who r st) as [(ev & cand & mu & _ & Hseen & _ & Heq) | [Hne Hst]].
    + rewrite Hs in Heq. injection Heq as -> ->.
      rewrite decide_True by done. cbn [length].
      apply seen_false in Hseen as [Hnone _].
      cbn [record put audit_log events] in Haud, Hev.
      rewrite length_app in Haud. cbn [length] in Haud.
      rewrite map_size_insert_None in Hev by done. lia.
    + rewrite Hs in Hne, Hst. cbn [fst snd] in Hne, Hst. subst st1.
      rewrite decide_False by done. lia.
Qed.

Lemma accepted_stored f who r st st1 :
  submit f who r st = (Accepted, st1) →
  ∃ i, raw_id r = Some i ∧ is_Some (events st1 !! i).
Proof.
  intros Hs.
  destruct (submit_cases f who r st) as [(ev & cand & mu & Hn & _ & _ & Heq) | [Hne _]].
  - rewrite Hs in Heq. injection Heq as ->.
    apply normalize_id in Hn as [Hid _]. exists (ev_id ev). split; [done |].
    cbn. rewrite lookup_insert_eq. eauto.
  - rewrite Hs in Hne. done.
Qed.

(** C5: a submission carrying an event identifier that is already stored
    is not accepted and leaves the store as it was: messages, events and
    audit log are unchanged; when the event is well formed the answer is the
    rejection naming the existing identifier. *)
Theorem resubmission_noop st i f who r :
  is_Some (events st !! i) →
  raw_id r = Some i →
  snd (submit f who r st) = st ∧
  audit_log (snd (submit f who r st)) = audit_log st ∧
  fst (submit f who r st) ≠ Accepted ∧
  (∀ ev cand, normalize r = inr (ev, cand) → fst (submit f who r st) = Rejected i).
Proof.
  intros [e He] Hr.
  assert (seen i st = true) as Hseen.
  { unfold seen. rewrite bool_decide_eq_true_2 by eauto. done. }
  assert (snd (submit f who r st) = st ∧ fst (submit f who r st) ≠ Accepted) as [Hst Hne].
  { destruct (submit_cases f who r st) as [(ev & cand & mu & Hn & Hs & _) | [Hne Hst]];
      [| done].
    apply normalize_id in Hn as [Hid _]. rewrite Hr in Hid. injection Hid as ->.
    congruence. }
  split; [done |]. split; [by rewrite Hst |]. split; [done |].
  intros ev cand Hn. unfold submit, gate. rewrite Hn.
  apply normalize_id in Hn as [Hid _]. rewrite Hr in Hid. injection Hid as <-.
  by rewrite Hseen.
Qed.

Lemma resubmission_noop_witness :
  snd (submit no_faults "bot" e1 (snd (submit no_faults "bot" e1 empty_store)))
  = snd (submit no_faults "bot" e1 empty_store).
Proof.
  apply (resubmission_noop (snd (submit no_faults "bot" e1 empty_store)) "e1"
                           no_faults "bot" e1).
  - vm_compute. eauto.
  - reflexivity.
Defined.

(** The scenario of section 8: the event submitted twice is answered
    [Accepted], then [Rejected]; one message and one audit entry remain. *)
Example scenario :
  let run := ingest "bot" [(no_faults, e1); (no_faults, e1)] empty_store in
  fst run = [Accepted; Rejected "e1"] ∧
  size (messages (snd run)) = 1 ∧
  is_Some (messages (snd run) !! "e1") ∧
  length (audit_log (snd run)) = 1.
Proof. vm_compute. eauto. Qed.

(** C6: a submission is accepted with exactly one audit entry appended,
    describing the mutation stored with it (the event recorded, the target
    message before and after, nothing else touched), or it is not accepted
    and the store is exactly what it was, also when the store write or the
    audit write fails; so over any run from any store the audit log and the
    event collection grow by the number of accepted submissions. *)
Theorem mutation_audit_atomic f who r st :
  let o := fst (submit f who r st) in
  let st' := snd (submit f who r st) in
  ((o = Accepted ∧
    ∃ entry ev,
      audit_log st' = audit_log st ++ [entry] ∧
      actor entry = who ∧
      events st !! ev_id ev = None ∧
      events st' = <[ev_id ev := ev]> (events st) ∧
      (∀ k, k ≠ target_id entry → messages st' !! k = messages st !! k) ∧
      ((target_collection entry = "messages" ∧
        before entry = messages st !! target_id entry ∧
        after entry = messages st' !! target_id entry) ∨
       (target_collection entry = "events" ∧ messages st' = messages st))) ∨
   (o ≠ Accepted ∧ st' = st)) ∧
  (∀ inbound,
     length (audit_log (snd (ingest who inbound st))) =
       length (audit_log st) + accepted (fst (ingest who inbound st)) ∧
     size (events (snd (ingest who inbound st))) =
       size (events st) + accepted (fst (ingest who inbound st))).
Proof.
  cbn zeta. split; [| intros inbound; apply ingest_counts].
  destruct (submit_cases f who r st) as [(ev & cand & mu & Hn & Hseen & Hplan & Heq) | H];
    [left | by right].
  rewrite Heq. cbn [fst snd]. split; [done |].
  apply seen_false in Hseen as [Hev Hmsg].
  apply normalize_id in Hn as [_ Hid].
  eexists _, ev. split; [reflexivity |]. split; [done |]. split; [done |].
  split; [done |]. cbn [target_id target_collection before after record put messages].
  apply plan_sound in Hplan as [(Hcoll & Hbefore & [m Hafter]) | [Hcoll Hafter]].
  - rewrite Hafter. split.
    + intros k Hk. by rewrite lookup_insert_ne.
    + left. by rewrite lookup_insert_eq.
  - rewrite Hafter. split; [done |]. by right.
  - intros Hc. rewrite Hid by done. done.
Qed.

(** ** At most one record per identifier *)

Lemma filter_absent {A B} `{EqDecision B} (f : A → B) (y : B) (l : list A) :
  y ∉ map f l → filter (λ x, f x = y) l = [].
Proof.
  induction l as [| x l IH]; [done |]. cbn [map]. intros Hy.
  apply not_elem_of_cons in Hy as [Hne Hy].
  rewrite filter_cons, decide_False by done. by apply IH.
Qed.

(** Keys without duplicates: no value is carried by two records. *)
Lemma count_le_1 {A B} `{EqDecision B} (f : A → B) (y : B) (l : list A) :
  NoDup (map f l) → length (filter (λ x, f x = y) l) ≤ 1.
Proof.
  induction l as [| x l IH]; [cbn; lia |]. cbn [map]. intros Hnd.
  apply NoDup_cons in Hnd as [Hx Hnd]. rewrite filter_cons.
  case_decide as Hy; [| by apply IH]. subst y.
  rewrite filter_absent by done. cbn. lia.
Qed.

(** The atomic insert keeps the identifiers distinct and never drops or
    replaces a stored record. *)
Lemma insert_if_absent_keeps m rs :
  NoDup (map id rs) →
  NoDup (map id (snd (insert_if_absent m rs))) ∧
  rs `prefix_of` snd (insert_if_absent m rs).
Proof.
  intros Hnd. unfold insert_if_absent.
  destruct (existsb _ rs) eqn:Hex; cbn [snd]; [done |].
  split; [| by apply prefix_app_r].
  rewrite map_app. apply NoDup_app. split; [done |]. split; [| apply NoDup_singleton].
  intros i Hi Hi'. apply list_elem_of_singleton in Hi'. subst i.
  apply list_elem_of_In, in_map_iff in Hi as (m' & Hid & Hin).
  assert (existsb (λ m', bool_decide (id m' = id m)) rs = true) as Hex'; [| congruence].
  apply existsb_exists. exists m'. split; [done |]. by apply bool_decide_eq_true.
Qed.

Lemma advance_keeps w sys :
  NoDup (map id (rows sys)) →
  NoDup (map id (rows (advance w sys))) ∧
  rows sys `prefix_of` rows (advance w sys).
Proof.
  intros Hnd. unfold advance.
  destruct (paths sys !! w) as [[| m rest] |]; [done | | done].
  cbn [rows]. by apply insert_if_absent_keeps.
Qed.

Lemma interleave_keeps schedule : ∀ sys,
  NoDup (map id (rows sys)) →
  NoDup (map id (rows (interleave schedule sys))) ∧
  rows sys `prefix_of` rows (interleave schedule sys).
Proof.
  induction schedule as [| w schedule IH]; intros sys Hnd; [done |].
  destruct (advance_keeps w sys Hnd) as [Hnd1 Hpre1].
  destruct (IH (advance w sys) Hnd1) as [Hnd2 Hpre2].
  split; [exact Hnd2 |]. by etrans.
Qed.

(** C1: whatever the ingestion paths hold and in whatever order they move,
    submissions through the storage layer's atomic insert-if-absent leave at
    most one stored record per identifier, and what was stored stays stored
    as it was: the guarantee is the unique constraint's, kept by every
    single step. *)
Theorem dedup_at_most_once sys schedule :
  NoDup (map id (rows sys)) →
  (∀ i, stored i (rows (interleave schedule sys)) ≤ 1) ∧
  NoDup (map id (rows (interleave schedule sys))) ∧
  rows sys `prefix_of` rows (interleave schedule sys).
Proof.
  intros Hnd. destruct (interleave_keeps schedule sys Hnd) as [Hnd' Hpre].
  split; [| done]. intros i. unfold stored. by apply count_le_1.
Qed.

Lemma dedup_at_most_once_witness :
  stored "e1" (rows (interleave [0; 1; 1; 0] (MkIngestion [] [[m1]; [m1; m1]]))) ≤ 1.
Proof.
  apply (dedup_at_most_once (MkIngestion [] [[m1]; [m1; m1]]) [0; 1; 1; 0]).
  cbn. constructor.
Defined.

(** Two paths submitting the scenario's message: whichever moves first,
    one record is stored. *)
Example two_paths_one_record :
  stored "e1" (rows (interleave [0; 1] (MkIngestion [] [[m1]; [m1]]))) = 1 ∧
  stored "e1" (rows (interleave [1; 0] (MkIngestion [] [[m1]; [m1]]))) = 1.
Proof. split; reflexivity. Qed.

(** The same two paths under check-then-insert: when both check before
    either inserts, the message is stored twice.  The guarantee above is
    the atomic insert's, not the check's. *)
Example check_then_insert_races :
  stored "e1"
    (cti_rows (cti_interleave [0; 1; 0; 1]
                 (MkCheckThenInsert [] [MkCheckingPath None [m1];
                                        MkCheckingPath None [m1]]))) = 2.
Proof. reflexivity. Qed.

End CoreFacts.
